(** * Null-aware columns and the expression executor of databend

    A shallow embedding of
    - [common/datavalues2/src/columns/null/mod.rs]     (NullColumn),
    - [common/datavalues2/src/columns/null/mutable.rs] (MutableNullColumn),
    - [common/datavalues2/src/types/type_nullable.rs]  (NullableType),
    - [query/src/pipelines/transforms/transform_expression_executor.rs]
      (ExpressionExecutor). *)

From Stdlib Require Import ZArith Lia Sorting.Sorted.
From stdpp Require Import base gmap list strings.

(** ** common_exception *)

Inductive ErrorCode :=
| LogicalError (msg : string)
| UnImplement (msg : string)
| BadDataValueType (msg : string)
| UnknownColumn (msg : string)
| FunctionError (msg : string).

(** [common_exception::Result]. *)
Inductive Result (A : Type) :=
| Ok (a : A)
| Err (e : ErrorCode).
Arguments Ok {A} a.
Arguments Err {A} e.

Global Instance Result_ret : MRet Result := fun A a => Ok a.
Global Instance Result_bind : MBind Result :=
  fun A B k m => match m with Ok a => k a | Err e => Err e end.

(** The [?] operator on an [Option], with the error of [ok_or_else]. *)
Definition ok_or_else {A} (o : option A) (e : ErrorCode) : Result A :=
  match o with Some a => Ok a | None => Err e end.

(** ** datavalues2 : NullColumn, MutableNullColumn, NullableType *)
Module datavalues2.

Inductive DataValue :=
| Null
| Boolean (b : bool)
| Int64 (z : Z)
| UInt64 (n : N)
| String (s : string).

Definition is_null (v : DataValue) : bool :=
  match v with Null => true | _ => false end.

Inductive TypeID := TNull | TNullable | TBoolean | TInt64 | TUInt64 | TString.

Global Instance TypeID_eq_dec : EqDecision TypeID.
Proof. solve_decision. Defined.

(** [pub struct NullColumn { length: usize }] *)
Record NullColumn := { length : nat }.

(** The columns this part of the code builds ([ColumnRef = Arc<dyn Column>]);
    columns built by other types appear as [PrimitiveColumn] or
    [ConstColumn]. *)
Inductive ColumnRef :=
| NullCol (c : NullColumn)
| NullableColumn (column : ColumnRef) (validity : list bool)
| ConstColumn (column : ColumnRef) (length : nat)
| PrimitiveColumn (values : list DataValue).

(** [Bitmap] as a list of bits; [Option<&Bitmap>] for [validity()]. *)
Definition Bitmap := list bool.

(** The validity bitmap of a [NullableColumn]. *)
Definition nullable_validity (c : ColumnRef) : option Bitmap :=
  match c with NullableColumn _ v => Some v | _ => None end.

Module NullColumn.
Definition new (length : nat) : NullColumn := {| length := length |}.
Definition is_nullable (_ : NullColumn) : bool := true.
Definition len (c : NullColumn) : nat := c.(length).
Definition null_at (_ : NullColumn) (_row : nat) : bool := true.
Definition only_null (_ : NullColumn) : bool := true.
Definition validity (_ : NullColumn) : bool * option Bitmap := (true, None).
Definition get_unchecked (_ : NullColumn) (_index : nat) : DataValue := Null.

(** [slice(&self, _offset, length)]: no bounds check, offset ignored. *)
Definition slice (_ : NullColumn) (_offset length : nat) : ColumnRef :=
  NullCol {| length := length |}.

(** [replicate(&self, offsets)]: the [debug_assert!] is only active when
    [debug_assertions] is set; [offsets.last().unwrap()] panics on an
    empty slice. A panic is [None]. *)
Definition replicate (debug_assertions : bool) (c : NullColumn)
    (offsets : list nat) : option ColumnRef :=
  if debug_assertions && negb (Nat.eqb (List.length offsets) (len c))
  then None
  else match last offsets with
       | Some l => Some (NullCol {| length := l |})
       | None => None
       end.

Definition convert_full_column (c : NullColumn) : ColumnRef := NullCol c.
End NullColumn.

(** [pub struct MutableNullColumn { length: usize }] *)
Record MutableNullColumn := { mlength : nat }.

Module MutableNullColumn.
Definition default : MutableNullColumn := {| mlength := 0 |}.

Definition append_default (m : MutableNullColumn) : MutableNullColumn :=
  {| mlength := m.(mlength) + 1 |}.

(** Returns [true] and the updated builder. *)
Definition append_null (m : MutableNullColumn) : bool * MutableNullColumn :=
  (true, {| mlength := m.(mlength) + 1 |}).

(** [finish(&mut self)]: the field is reset first, then read into the
    returned column. Result: the column and the builder afterwards. *)
Definition finish (m : MutableNullColumn) : NullColumn * MutableNullColumn :=
  let m := {| mlength := 0 |} in
  ({| length := m.(mlength) |}, m).

Fixpoint append_nulls (k : nat) (m : MutableNullColumn) : MutableNullColumn :=
  match k with 0 => m | S k => append_nulls k (snd (append_null m)) end.

Fixpoint append_defaults (k : nat) (m : MutableNullColumn) : MutableNullColumn :=
  match k with 0 => m | S k => append_defaults k (append_default m) end.


Definition validity (_ : MutableNullColumn) : option Bitmap := None.

(** A sequence of [append_null] / [append_default] calls. *)
Inductive AppendOp := AppendNull | AppendDefault.

Definition apply_op (m : MutableNullColumn) (op : AppendOp) : MutableNullColumn :=
  match op with
  | AppendNull => snd (append_null m)
  | AppendDefault => append_default m
  end.

Definition apply_ops (ops : list AppendOp) (m : MutableNullColumn)
    : MutableNullColumn :=
  fold_left apply_op ops m.
End MutableNullColumn.

(** The [DataType] trait, restricted to the methods [NullableType] calls on
    its inner type. *)
Record DataTypePtr := {
  data_type_id : TypeID;
  default_value : DataValue;
  create_constant_column : DataValue -> nat -> Result ColumnRef;
  create_column : list DataValue -> Result ColumnRef
}.

(** [pub struct NullableType { inner: DataTypePtr }] *)
Record NullableType := { inner : DataTypePtr }.

Module NullableType.
Definition is_nullable (_ : NullableType) : bool := true.
Definition default_value (_ : NullableType) : DataValue := Null.

Definition nesting_error : ErrorCode :=
  BadDataValueType "Nullable type can't be inside nullable type".

Definition create_constant_column (self : NullableType) (data : DataValue)
    (size : nat) : Result ColumnRef :=
  if decide (self.(inner).(data_type_id) = TNull) then
    Ok (NullCol (NullColumn.new size))
  else if decide (self.(inner).(data_type_id) = TNull) then
    Err nesting_error
  else
    let '(bitmap, data) :=
      if is_null data then (repeat false size, self.(inner).(datavalues2.default_value))
      else (repeat true size, data) in
    column ← self.(inner).(datavalues2.create_constant_column) data size;
    Ok (NullableColumn column bitmap).

(** The loop of [create_column]: the bitmap and the staging vector. *)
Fixpoint stage (inner : DataTypePtr) (data : list DataValue)
    : list DataValue * Bitmap :=
  match data with
  | [] => ([], [])
  | v :: data =>
      let '(res, bitmap) := stage inner data in
      if is_null v then (inner.(datavalues2.default_value) :: res, false :: bitmap)
      else (v :: res, true :: bitmap)
  end.

Definition create_column (self : NullableType) (data : list DataValue)
    : Result ColumnRef :=
  let '(res, bitmap) := stage self.(inner) data in
  column ← self.(inner).(datavalues2.create_column) res;
  Ok (NullableColumn column bitmap).
End NullableType.

End datavalues2.

(** ** datavalues : the column model the expression executor runs on *)
Module datavalues.

Inductive DataType := DTNull | DTBoolean | DTInt64 | DTString.

(** Scalars of the old column model: every non-[Null] variant carries an
    [Option], [None] being a typed null. *)
Inductive DataValue :=
| Null
| Boolean (b : option bool)
| Int64 (z : option Z)
| String (s : option string).

Definition is_null (v : DataValue) : bool :=
  match v with
  | Null | Boolean None | Int64 None | String None => true
  | _ => false
  end.

Definition new_from_data_type (dt : DataType) (is_null : bool) : DataValue :=
  match dt with
  | DTNull => Null
  | DTBoolean => Boolean (if is_null then None else Some false)
  | DTInt64 => Int64 (if is_null then None else Some 0%Z)
  | DTString => String (if is_null then None else Some EmptyString)
  end.

(** The null of a value's own type. *)
Definition to_null (v : DataValue) : DataValue :=
  match v with
  | Null => Null
  | Boolean _ => Boolean None
  | Int64 _ => Int64 None
  | String _ => String None
  end.

(** [DataColumn::Array(series)] and [DataColumn::Constant(value, rows)]. *)
Inductive DataColumn :=
| Array (values : list DataValue)
| Constant (value : DataValue) (rows : nat).

Definition len (c : DataColumn) : nat :=
  match c with Array vs => List.length vs | Constant _ n => n end.

(** The rows of a column, a constant one materialized. *)
Definition values_of (c : DataColumn) : list DataValue :=
  match c with Array vs => vs | Constant v n => repeat v n end.

(** Modelled from the spec: [DataColumn::get_validity] (not in this excerpt),
    one bit per row, [true] meaning "valid / non-null". *)
Definition get_validity (c : DataColumn) : list bool :=
  map (fun v => negb (is_null v)) (values_of c).

(** Modelled from the spec: [Validity::all_null], "entirely null". *)
Definition all_null (validity : list bool) : bool := forallb negb validity.

(** Modelled from the spec: [DataColumn::apply_validities] intersects the
    column's validity with the logical AND of the given validities: a row
    stays valid only if every argument is valid there. *)
Definition apply_validities (c : DataColumn) (validities : list (list bool))
    : Result DataColumn :=
  let mask i := forallb (fun va => nth i va true) validities in
  Ok (Array (imap (fun i v => if mask i then v else to_null v) (values_of c))).

Record DataField := {
  name : string;
  data_type : DataType;
  nullable : bool
}.

Record DataColumnWithField := {
  column : DataColumn;
  field : DataField
}.

Record DataBlock := {
  schema : list DataField;
  columns : list DataColumn
}.

Fixpoint index_of (n : string) (fields : list DataField) : option nat :=
  match fields with
  | [] => None
  | f :: fs => if String.eqb f.(name) n then Some 0 else S <$> index_of n fs
  end.

(** Modelled from the spec: [DataBlock::try_column_by_name] (a column of the
    block by its schema name). *)
Definition try_column_by_name (b : DataBlock) (n : string) : Result DataColumn :=
  match index_of n b.(schema) ≫= fun i => b.(columns) !! i with
  | Some c => Ok c
  | None => Err (UnknownColumn n)
  end.

(** Modelled from the spec: [DataSchema::field_with_name]. *)
Definition field_with_name (b : DataBlock) (n : string) : Result DataField :=
  match index_of n b.(schema) ≫= fun i => b.(schema) !! i with
  | Some f => Ok f
  | None => Err (UnknownColumn n)
  end.

(** Modelled from the spec: [DataBlock::num_rows], the row count shared by
    all columns. *)
Definition num_rows (b : DataBlock) : nat :=
  match b.(columns) with [] => 0 | c :: _ => len c end.

End datavalues.

(** ** query : ExpressionExecutor *)
Module transform_expression_executor.
Import datavalues.

(** A scalar function: [eval] and its static [passthrough_null] flag. *)
Record ScalarFunction := {
  eval : list DataColumnWithField -> nat -> Result DataColumn;
  passthrough_null : bool
}.

Record ActionInput := { input_name : string }.

Record ActionFunction := {
  fn_name : string;
  arg_names : list string;
  is_nullable : bool;
  return_type : DataType;
  func : ScalarFunction
}.

Record ActionConstant := {
  const_name : string;
  value : DataValue;
  const_data_type : DataType
}.

Record ActionAlias := {
  alias_name : string;
  arg_name : string
}.

Inductive ExpressionAction :=
| Input (a : ActionInput)
| Function (a : ActionFunction)
| Constant (a : ActionConstant)
| Alias (a : ActionAlias).

Definition column_name (a : ExpressionAction) : string :=
  match a with
  | Input i => i.(input_name)
  | Function f => f.(fn_name)
  | Constant c => c.(const_name)
  | Alias a => a.(alias_name)
  end.

Record ExpressionExecutor := {
  description : string;
  output_schema : list DataField;
  chain : list ExpressionAction;
  alias_project : bool
}.

Definition ColumnMap := gmap string DataColumnWithField.
Definition AliasActionMap := gmap string (list string).

Definition execute_function (column_map : gmap string DataColumnWithField)
    (f : ActionFunction) (rows : nat) : Result DataColumnWithField :=
  arg_columns ← mapM (fun arg => ok_or_else (column_map !! arg)
      (LogicalError "Arguments must be prepared before function transform"))
      f.(arg_names);
  column ←
    (if f.(is_nullable) && f.(func).(passthrough_null) then
       let arg_column_validities :=
         map (fun cwf => get_validity cwf.(column)) arg_columns in
       if existsb all_null arg_column_validities then
         let null_value := new_from_data_type f.(return_type) true in
         Ok (datavalues.Constant null_value rows)
       else
         column ← f.(func).(eval) arg_columns rows;
         apply_validities column arg_column_validities
     else f.(func).(eval) arg_columns rows);
  Ok {| column := column;
        field := {| name := f.(fn_name); data_type := f.(return_type);
                    nullable := f.(is_nullable) |} |}.

(** [alias_action_map]: push [name] onto the vector of [arg_name]. *)
Definition push_alias (m : gmap string (list string)) (arg name : string)
    : gmap string (list string) :=
  match m !! arg with
  | Some v => <[arg := v ++ [name]]> m
  | None => <[arg := [name]]> m
  end.

(** The columns of the input block, by schema name. *)
Fixpoint seed (block : DataBlock) (fields : list DataField)
    (column_map : gmap string DataColumnWithField)
    : Result (gmap string DataColumnWithField) :=
  match fields with
  | [] => Ok column_map
  | f :: fields =>
      c ← try_column_by_name block f.(name);
      seed block fields (<[f.(name) := {| column := c; field := f |}]> column_map)
  end.

(** One iteration of [for action in self.chain.actions.iter()]. *)
Definition step (block : DataBlock) (rows : nat) (action : ExpressionAction)
    (st : gmap string DataColumnWithField * gmap string (list string))
    : Result (gmap string DataColumnWithField * gmap string (list string)) :=
  let '(column_map, alias_action_map) := st in
  let alias_action_map :=
    match action with
    | Alias a => push_alias alias_action_map a.(arg_name) a.(alias_name)
    | _ => alias_action_map
    end in
  if decide (is_Some (column_map !! column_name action)) then
    Ok (column_map, alias_action_map)
  else
    match action with
    | Input i =>
        c ← try_column_by_name block i.(input_name);
        fld ← field_with_name block i.(input_name);
        Ok (<[i.(input_name) := {| column := c; field := fld |}]> column_map,
            alias_action_map)
    | Function f =>
        cwf ← execute_function column_map f rows;
        Ok (<[f.(fn_name) := cwf]> column_map, alias_action_map)
    | Constant c =>
        let col := datavalues.Constant c.(value) rows in
        let fld := {| name := c.(const_name); data_type := c.(const_data_type);
                      nullable := is_null c.(value) |} in
        Ok (<[c.(const_name) := {| column := col; field := fld |}]> column_map,
            alias_action_map)
    | Alias _ => Ok (column_map, alias_action_map)
    end.

Fixpoint run_actions (block : DataBlock) (rows : nat)
    (actions : list ExpressionAction)
    (st : gmap string DataColumnWithField * gmap string (list string))
    : Result (gmap string DataColumnWithField * gmap string (list string)) :=
  match actions with
  | [] => Ok st
  | a :: actions => st ← step block rows a st; run_actions block rows actions st
  end.

Definition duplicate_alias (name : string) : ErrorCode :=
  UnImplement (String.append "Duplicate alias name :" name).

(** [for name in v.iter() { match alias_map.insert(name, column) ... }] *)
Fixpoint insert_aliases (alias_map : gmap string DataColumnWithField)
    (column : DataColumnWithField) (names : list string)
    : Result (gmap string DataColumnWithField) :=
  match names with
  | [] => Ok alias_map
  | n :: names =>
      match alias_map !! n with
      | Some _ => Err (duplicate_alias n)
      | None => insert_aliases (<[n := column]> alias_map) column names
      end
  end.

(** [for (k, v) in alias_action_map.iter()], over the entries in the
    iteration order of the hash map. *)
Fixpoint alias_pass (column_map : gmap string DataColumnWithField)
    (entries : list (string * list string))
    (alias_map : gmap string DataColumnWithField)
    : Result (gmap string DataColumnWithField) :=
  match entries with
  | [] => Ok alias_map
  | (k, v) :: entries =>
      column ← ok_or_else (column_map !! k)
        (LogicalError "Arguments must be prepared before alias transform");
      alias_map ← insert_aliases alias_map column v;
      alias_pass column_map entries alias_map
  end.

(** The column of one output field. The error message of the source also
    lists the keys of [column_map]; it is abbreviated here. *)
Definition project (column_map alias_map : gmap string DataColumnWithField)
    (f : DataField) : Result DataColumn :=
  match alias_map !! f.(name) with
  | Some c => Ok c.(column)
  | None =>
      c ← ok_or_else (column_map !! f.(name))
        (LogicalError (String.append "Projection column: "
           (String.append f.(name) " not exists, there are bugs!")));
      Ok c.(column)
  end.

Section Execute.
(** The iteration order of a Rust [HashMap] is unspecified: any order of
    its entries. *)
Variable iter_order :
  list (string * list string) -> list (string * list string).

Definition execute (self : ExpressionExecutor) (block : DataBlock)
    : Result DataBlock :=
  column_map ← seed block block.(schema) ∅;
  let rows := num_rows block in
  st ← run_actions block rows self.(chain) (column_map, ∅);
  let '(column_map, alias_action_map) := st in
  alias_map ←
    (if self.(alias_project)
     then alias_pass column_map (iter_order (map_to_list alias_action_map)) ∅
     else Ok ∅);
  project_columns ← mapM (project column_map alias_map) self.(output_schema);
  Ok {| schema := self.(output_schema); columns := project_columns |}.
End Execute.

End transform_expression_executor.

(** * Sample types, functions and blocks *)

Module SampleTypes.
Import datavalues2.

(** An inner type for the concrete checks: 64-bit integers, whose
    constant column repeats one physical value. *)
Definition int64_type : DataTypePtr := {|
  data_type_id := TInt64;
  datavalues2.default_value := Int64 0;
  datavalues2.create_constant_column := fun v n => Ok (ConstColumn (PrimitiveColumn [v]) n);
  datavalues2.create_column := fun vs => Ok (PrimitiveColumn vs)
|}.

Definition null_type : DataTypePtr := {|
  data_type_id := TNull;
  datavalues2.default_value := Null;
  datavalues2.create_constant_column := fun _ n => Ok (NullCol (NullColumn.new n));
  datavalues2.create_column := fun vs => Ok (NullCol (NullColumn.new (List.length vs)))
|}.

End SampleTypes.

Module SampleExecutor.
Import datavalues transform_expression_executor.

(** [f] with another evaluator, every other field unchanged. *)
Definition with_eval (f : ActionFunction)
    (ev : list DataColumnWithField -> nat -> Result DataColumn) : ActionFunction :=
  {| fn_name := f.(fn_name); arg_names := f.(arg_names);
     is_nullable := f.(is_nullable); return_type := f.(return_type);
     func := {| eval := ev; passthrough_null := f.(func).(passthrough_null) |} |}.

Definition field_of (n : string) : DataField :=
  {| name := n; data_type := DTInt64; nullable := false |}.

(** A block with two one-row columns [a] and [b]. *)
Definition block_ab : DataBlock := {|
  schema := [field_of "a"; field_of "b"];
  columns := [Array [Int64 (Some 1%Z)]; Array [Int64 (Some 2%Z)]]
|}.

Definition block_a : DataBlock := {|
  schema := [field_of "a"];
  columns := [Array [Int64 (Some 1%Z)]]
|}.

Definition alias_y_a : ActionAlias := {| alias_name := "y"; arg_name := "a" |}.
Definition alias_y_b : ActionAlias := {| alias_name := "y"; arg_name := "b" |}.

(** [a as y, b as y]. *)
Definition duplicate_alias_executor (alias_project : bool)
    (output : list DataField) : ExpressionExecutor := {|
  description := "duplicate alias";
  output_schema := output;
  chain := [Alias alias_y_a; Alias alias_y_b];
  alias_project := alias_project
|}.

Definition identity_order (l : list (string * list string))
    : list (string * list string) := l.

Definition block_x : DataBlock := {|
  schema := [field_of "x"];
  columns := [Array [Int64 (Some 5%Z)]]
|}.

(** [x as y, x as z]. *)
Definition fan_out_executor (alias_project : bool) (output : list DataField)
    : ExpressionExecutor := {|
  description := "alias fan-out";
  output_schema := output;
  chain := [Alias {| alias_name := "y"; arg_name := "x" |};
            Alias {| alias_name := "z"; arg_name := "x" |}];
  alias_project := alias_project
|}.

Definition constant_x : ExpressionAction :=
  Constant {| const_name := "x"; value := Int64 (Some 7%Z);
              const_data_type := DTInt64 |}.

Definition x_column : DataColumnWithField :=
  {| column := Array [Int64 (Some 5%Z)]; field := field_of "x" |}.

(** [x + 1] as [Int64], not nullable. *)
Definition x_plus_one : ActionFunction := {|
  fn_name := "x_plus_one";
  arg_names := ["x"];
  is_nullable := false;
  return_type := DTInt64;
  func := {| eval := fun args rows =>
               match args with
               | [a] => Ok (Array (map (fun v => match v with
                                         | Int64 (Some z) => Int64 (Some (z + 1)%Z)
                                         | v => v end) (values_of a.(column))))
               | _ => Err (FunctionError "x_plus_one takes one argument")
               end;
             passthrough_null := false |}
|}.

End SampleExecutor.

(** * Properties *)

(** ** NullColumn *)
Module NullColumnFacts.
Import datavalues2.

Example replicate_2_5_5_9 :
  NullColumn.replicate true (NullColumn.new 4) [2; 5; 5; 9]
  = Some (NullCol (NullColumn.new 9)).
Proof. reflexivity. Qed.

(** C9: [NullColumn::new(N)] has length [N], is null at every row, reports
    [only_null], [is_nullable] and the validity [(true, None)]. *)
Theorem new_null_column_props (N : nat) :
  NullColumn.len (NullColumn.new N) = N
  ∧ (∀ i, NullColumn.null_at (NullColumn.new N) i = true)
  ∧ NullColumn.only_null (NullColumn.new N) = true
  ∧ NullColumn.is_nullable (NullColumn.new N) = true
  ∧ NullColumn.validity (NullColumn.new N) = (true, None).
Proof. repeat split. Qed.

(** C10: [slice(offset, length)] always succeeds and gives an all-null
    column of [length] rows, whatever the offset (no bounds check). *)
Theorem slice_total_ignores_offset (c : NullColumn) (offset len : nat) :
  NullColumn.slice c offset len = NullCol (NullColumn.new len)
  ∧ (∀ offset', NullColumn.slice c offset' len = NullColumn.slice c offset len).
Proof. split; reflexivity. Qed.

(** C8: on a column of [N >= 1] rows and a non-decreasing offsets slice of
    length [N], [replicate] gives an all-null column whose length is the last
    offset (with or without debug assertions). *)
Theorem replicate_last_offset (debug_assertions : bool) (N : nat)
    (offsets : list nat)
    (Hlen : List.length offsets = N) (HN : 1 ≤ N)
    (Hsorted : Sorted le offsets) :
  NullColumn.replicate debug_assertions (NullColumn.new N) offsets
  = Some (NullCol (NullColumn.new (List.last offsets 0))).
Proof.
  unfold NullColumn.replicate, NullColumn.len, NullColumn.new; simpl.
  rewrite Hlen, Nat.eqb_refl, andb_false_r.
  destruct offsets as [|o os] using rev_ind; [simpl in Hlen; lia|].
  rewrite last_snoc, List.last_last. reflexivity.
Qed.

Lemma replicate_last_offset_witness :
  List.length [2; 5; 5; 9] = 4 ∧ 1 ≤ 4 ∧ Sorted le [2; 5; 5; 9]
  ∧ NullColumn.replicate true (NullColumn.new 4) [2; 5; 5; 9]
    = Some (NullCol (NullColumn.new 9)).
Proof.
  assert (Hs : Sorted le [2; 5; 5; 9]) by (repeat constructor; lia).
  split; [reflexivity|]. split; [lia|]. split; [exact Hs|].
  exact (replicate_last_offset true 4 [2; 5; 5; 9] eq_refl ltac:(lia) Hs).
Defined.

End NullColumnFacts.

(** ** MutableNullColumn *)
Module MutableNullColumnFacts.
Import datavalues2.

Lemma append_nulls_length k m :
  (MutableNullColumn.append_nulls k m).(mlength) = m.(mlength) + k.
Proof.
  revert m; induction k as [|k IH]; intros m; simpl; [lia|].
  rewrite IH; simpl; lia.
Qed.

Lemma append_defaults_length k m :
  (MutableNullColumn.append_defaults k m).(mlength) = m.(mlength) + k.
Proof.
  revert m; induction k as [|k IH]; intros m; simpl; [lia|].
  rewrite IH; simpl; lia.
Qed.

(** The builder does count [k + m] rows before [finish]. *)
Lemma builder_counts_appends k m :
  (MutableNullColumn.append_defaults m
     (MutableNullColumn.append_nulls k MutableNullColumn.default)).(mlength)
  = k + m.
Proof. rewrite append_defaults_length, append_nulls_length. reflexivity. Qed.

(** C3 (as the code behaves): [finish] resets the counter before reading
    it, so after [k] nulls and [m] defaults it returns a column of length 0,
    not [k + m]; the builder is left at length 0. *)
Theorem finish_returns_empty_column k m :
  MutableNullColumn.finish
    (MutableNullColumn.append_defaults m
       (MutableNullColumn.append_nulls k MutableNullColumn.default))
  = (NullColumn.new 0, {| mlength := 0 |}).
Proof. reflexivity. Qed.

Example finish_one_null :
  NullColumn.len (fst (MutableNullColumn.finish
     (MutableNullColumn.append_nulls 1 MutableNullColumn.default))) = 0.
Proof. reflexivity. Qed.

End MutableNullColumnFacts.

(** ** NullableType *)
Module NullableTypeFacts.
Import datavalues2 SampleTypes.

Example constant_null_over_null :
  NullableType.create_constant_column {| inner := null_type |} Null 5
  = Ok (NullCol (NullColumn.new 5)).
Proof. reflexivity. Qed.

Example constant_over_int64 :
  NullableType.create_constant_column {| inner := int64_type |} (Int64 7) 3
  = Ok (NullableColumn (ConstColumn (PrimitiveColumn [Int64 7]) 3) [true; true; true]).
Proof. reflexivity. Qed.

Example create_column_null_v_null :
  NullableType.create_column {| inner := int64_type |} [Null; Int64 7; Null]
  = Ok (NullableColumn (PrimitiveColumn [Int64 0; Int64 7; Int64 0])
                       [false; true; false]).
Proof. reflexivity. Qed.

(** C4: over the [Null] inner type, [create_constant_column] returns a
    [NullColumn] of [size] rows; and every error it returns is the error of
    the inner type's own [create_constant_column] over a non-[Null] inner
    type, so the nesting-rejection branch never fires. *)
Theorem constant_column_null_inner (nt : NullableType) (d : DataValue)
    (size : nat) :
  (nt.(inner).(data_type_id) = TNull →
   NullableType.create_constant_column nt d size
   = Ok (NullCol (NullColumn.new size)))
  ∧ (∀ e, NullableType.create_constant_column nt d size = Err e →
     nt.(inner).(data_type_id) ≠ TNull
     ∧ nt.(inner).(datavalues2.create_constant_column)
         (if is_null d then nt.(inner).(datavalues2.default_value) else d) size
       = Err e).
Proof.
  unfold NullableType.create_constant_column.
  destruct (decide (data_type_id (inner nt) = TNull)) as [Hn|Hn].
  - split; [reflexivity|]. intros e He; discriminate.
  - split; [intros H; contradiction|].
    intros e He. split; [exact Hn|].
    destruct (is_null d); simpl in He;
      destruct (datavalues2.create_constant_column (inner nt) _ size);
      simpl in He; congruence.
Qed.

Lemma stage_map (inner : DataTypePtr) (data : list DataValue) :
  NullableType.stage inner data
  = (map (fun v => if is_null v then inner.(datavalues2.default_value) else v) data,
     map (fun v => negb (is_null v)) data).
Proof.
  induction data as [|v data IH]; [reflexivity|].
  simpl. rewrite IH. destruct (is_null v); reflexivity.
Qed.

(** C5: [create_column] pairs one validity bit per value ([false] for
    [Null]) with the inner column built from the values where every [Null]
    is replaced by the inner default; an inner error is returned unchanged. *)
Theorem create_column_spec (nt : NullableType) (data : list DataValue) :
  NullableType.create_column nt data
  = match nt.(inner).(datavalues2.create_column)
            (map (fun v => if is_null v then nt.(inner).(datavalues2.default_value)
                           else v) data) with
    | Ok column => Ok (NullableColumn column (map (fun v => negb (is_null v)) data))
    | Err e => Err e
    end.
Proof.
  unfold NullableType.create_column. rewrite stage_map. reflexivity.
Qed.

(** C6: over a non-[Null] inner type, [create_constant_column v n] pairs the
    inner constant column of [n] rows (of [v], or of the inner default when
    [v] is null) with [n] validity bits, all [false] for a null [v] and all
    [true] otherwise. *)
Theorem constant_column_non_null_inner (nt : NullableType) (v : DataValue)
    (n : nat) (Hinner : nt.(inner).(data_type_id) ≠ TNull) :
  NullableType.create_constant_column nt v n
  = match nt.(inner).(datavalues2.create_constant_column)
            (if is_null v then nt.(inner).(datavalues2.default_value) else v) n with
    | Ok column => Ok (NullableColumn column (repeat (negb (is_null v)) n))
    | Err e => Err e
    end.
Proof.
  unfold NullableType.create_constant_column.
  destruct (decide (data_type_id (inner nt) = TNull)) as [Hn|_];
    [contradiction|].
  destruct (is_null v); simpl;
    destruct (datavalues2.create_constant_column (inner nt) _ n); reflexivity.
Qed.

Lemma constant_column_non_null_inner_witness :
  {| inner := int64_type |}.(inner).(data_type_id) ≠ TNull
  ∧ NullableType.create_constant_column {| inner := int64_type |} (Int64 7) 3
    = Ok (NullableColumn (ConstColumn (PrimitiveColumn [Int64 7]) 3)
                         [true; true; true]).
Proof.
  assert (H : {| inner := int64_type |}.(inner).(data_type_id) ≠ TNull)
    by discriminate.
  split; [exact H|].
  rewrite (constant_column_non_null_inner {| inner := int64_type |} (Int64 7) 3 H).
  reflexivity.
Defined.

End NullableTypeFacts.

(** ** ExpressionExecutor: [execute_function] *)
Module ExecuteFunctionFacts.
Import datavalues transform_expression_executor SampleExecutor.

Lemma mapM_lookup (column_map : gmap string DataColumnWithField) (e : ErrorCode)
    (names : list string) (args : list DataColumnWithField) :
  Forall2 (fun a c => column_map !! a = Some c) names args →
  mapM (fun arg => ok_or_else (column_map !! arg) e) names = Ok args.
Proof.
  induction 1 as [|a c names args Hac _ IH]; [reflexivity|].
  simpl. rewrite Hac. simpl. rewrite IH. reflexivity.
Qed.

Lemma is_null_to_null v : is_null (to_null v) = true.
Proof. by destruct v. Qed.

Lemma forallb_nth_false (i : nat) (vs : list (list bool)) :
  forallb (fun va => nth i va true) vs = false ↔
  Exists (fun va => nth i va true = false) vs.
Proof.
  induction vs as [|va vs IH]; simpl.
  - split; [discriminate|]. intros H; inversion H.
  - rewrite andb_false_iff, IH. split.
    + intros H; apply Exists_cons; exact H.
    + intros H; apply Exists_cons in H; exact H.
Qed.

Lemma apply_validities_ok (c : DataColumn) (vs : list (list bool)) :
  ∃ out, apply_validities c vs = Ok out
  ∧ List.length (get_validity out) = List.length (get_validity c)
  ∧ ∀ i, i < List.length (get_validity c) →
    nth i (get_validity out) true
    = forallb (fun va => nth i va true) vs && nth i (get_validity c) true.
Proof.
  eexists; split; [reflexivity|].
  unfold get_validity. simpl.
  rewrite !length_map, length_imap. split; [reflexivity|].
  intros i Hi.
  destruct (lookup_lt_is_Some_2 (values_of c) i Hi) as [v Hv].
  rewrite !nth_lookup, !list_lookup_fmap, list_lookup_imap, Hv. simpl.
  destruct (forallb _ vs); simpl; [reflexivity|].
  rewrite is_null_to_null. reflexivity.
Qed.

Lemma existsb_all_null_false (args : list DataColumnWithField) :
  Forall (fun c => all_null (get_validity c.(column)) = false) args →
  existsb all_null (map (fun cwf => get_validity cwf.(column)) args) = false.
Proof. induction 1 as [|c args Hc _ IH]; simpl; [reflexivity|]. by rewrite Hc, IH. Qed.

Lemma existsb_all_null_true (args : list DataColumnWithField) :
  Exists (fun c => all_null (get_validity c.(column)) = true) args →
  existsb all_null (map (fun cwf => get_validity cwf.(column)) args) = true.
Proof.
  induction 1 as [c args Hc|c args _ IH]; simpl.
  - by rewrite Hc.
  - rewrite IH. apply orb_true_r.
Qed.

Lemma constant_null_all_null (dt : DataType) (rows : nat) :
  all_null (get_validity (datavalues.Constant (new_from_data_type dt true) rows)) = true.
Proof.
  unfold all_null, get_validity. simpl.
  assert (Hn : is_null (new_from_data_type dt true) = true) by (by destruct dt).
  induction rows as [|rows IH]; simpl; [reflexivity|]. by rewrite Hn.
Qed.

Lemma short_circuit_value (column_map : gmap string DataColumnWithField)
    (f : ActionFunction) (rows : nat) (args : list DataColumnWithField) :
  Forall2 (fun a c => column_map !! a = Some c) f.(arg_names) args →
  f.(is_nullable) = true → f.(func).(passthrough_null) = true →
  Exists (fun c => all_null (get_validity c.(column)) = true) args →
  execute_function column_map f rows
  = Ok {| column := datavalues.Constant (new_from_data_type f.(return_type) true) rows;
          field := {| name := f.(fn_name); data_type := f.(return_type);
                      nullable := true |} |}.
Proof.
  intros Hargs Hn Hp Hall. unfold execute_function.
  rewrite (mapM_lookup _ _ _ _ Hargs). simpl.
  rewrite Hn, Hp. simpl. rewrite (existsb_all_null_true _ Hall). reflexivity.
Qed.

(** C1: for a nullable, null-passing function none of whose argument
    columns is entirely null, [execute_function] evaluates the function and
    masks its result: a row of the output is null iff the raw result is null
    there or some argument is null there. *)
Theorem passthrough_masking (column_map : gmap string DataColumnWithField)
    (f : ActionFunction) (rows : nat) (args : list DataColumnWithField)
    (raw : DataColumn)
    (Hargs : Forall2 (fun a c => column_map !! a = Some c) f.(arg_names) args)
    (Hnullable : f.(is_nullable) = true)
    (Hpass : f.(func).(passthrough_null) = true)
    (Hsome : Forall (fun c => all_null (get_validity c.(column)) = false) args)
    (Heval : f.(func).(eval) args rows = Ok raw) :
  ∃ out, execute_function column_map f rows = Ok out
  ∧ List.length (get_validity out.(column)) = List.length (get_validity raw)
  ∧ ∀ i, i < List.length (get_validity raw) →
    (nth i (get_validity out.(column)) true = false ↔
     nth i (get_validity raw) true = false
     ∨ Exists (fun c => nth i (get_validity c.(column)) true = false) args).
Proof.
  unfold execute_function.
  rewrite (mapM_lookup _ _ _ _ Hargs). simpl.
  rewrite Hnullable, Hpass. simpl. rewrite (existsb_all_null_false _ Hsome), Heval.
  cbn -[apply_validities].
  destruct (apply_validities_ok raw (map (fun cwf => get_validity cwf.(column)) args))
    as (out & Hout & Hlen & Hnth).
  rewrite Hout. simpl.
  eexists; split; [reflexivity|]. simpl. split; [exact Hlen|].
  intros i Hi. rewrite (Hnth i Hi), andb_false_iff, forallb_nth_false, Exists_map.
  tauto.
Qed.

Lemma passthrough_masking_witness :
  let arg := {| column := Array [Int64 (Some 1%Z); Int64 None; Int64 (Some 3%Z)];
                field := {| name := "a"; data_type := DTInt64; nullable := true |} |} in
  let f := {| fn_name := "f"; arg_names := ["a"]; is_nullable := true;
              return_type := DTInt64;
              func := {| eval := fun _ n => Ok (Array (repeat (Int64 (Some 0%Z)) n));
                         passthrough_null := true |} |} in
  Forall2 (fun a c => ({[ "a" := arg ]} : gmap string DataColumnWithField) !! a = Some c)
    f.(arg_names) [arg]
  ∧ Forall (fun c => all_null (get_validity c.(column)) = false) [arg]
  ∧ ∃ out, execute_function {[ "a" := arg ]} f 3 = Ok out
    ∧ List.length (get_validity out.(column)) = 3
    ∧ ∀ i, i < 3 →
      (nth i (get_validity out.(column)) true = false ↔
       nth i (get_validity (Array (repeat (Int64 (Some 0%Z)) 3))) true = false
       ∨ Exists (fun c => nth i (get_validity c.(column)) true = false) [arg]).
Proof.
  intros arg f.
  assert (Ha : Forall2 (fun a c => ({[ "a" := arg ]} : gmap string DataColumnWithField)
                  !! a = Some c) f.(arg_names) [arg])
    by (repeat constructor).
  assert (Hs : Forall (fun c => all_null (get_validity c.(column)) = false) [arg])
    by (repeat constructor).
  split; [exact Ha|]. split; [exact Hs|].
  exact (passthrough_masking {[ "a" := arg ]} f 3 [arg]
           (Array (repeat (Int64 (Some 0%Z)) 3)) Ha eq_refl eq_refl Hs eq_refl).
Defined.

(** C2: for a nullable, null-passing function one of whose argument columns
    is entirely null, [execute_function] does not depend on the evaluator
    (it is never called) and returns the constant column of [rows] rows of
    the typed null of the return type. *)
Theorem all_null_short_circuit (column_map : gmap string DataColumnWithField)
    (f : ActionFunction) (rows : nat) (args : list DataColumnWithField)
    (Hargs : Forall2 (fun a c => column_map !! a = Some c) f.(arg_names) args)
    (Hnullable : f.(is_nullable) = true)
    (Hpass : f.(func).(passthrough_null) = true)
    (Hall : Exists (fun c => all_null (get_validity c.(column)) = true) args) :
  execute_function column_map f rows
  = Ok {| column := datavalues.Constant (new_from_data_type f.(return_type) true) rows;
          field := {| name := f.(fn_name); data_type := f.(return_type);
                      nullable := true |} |}
  ∧ (∀ ev, execute_function column_map (with_eval f ev) rows
           = execute_function column_map f rows)
  ∧ all_null (get_validity
       (datavalues.Constant (new_from_data_type f.(return_type) true) rows)) = true
  ∧ len (datavalues.Constant (new_from_data_type f.(return_type) true) rows) = rows.
Proof.
  split; [exact (short_circuit_value _ _ _ _ Hargs Hnullable Hpass Hall)|].
  split; [|split; [apply constant_null_all_null|reflexivity]].
  intros ev.
  rewrite (short_circuit_value _ _ _ _ Hargs Hnullable Hpass Hall).
  exact (short_circuit_value column_map (with_eval f ev) rows args
           Hargs Hnullable Hpass Hall).
Qed.

Lemma all_null_short_circuit_witness :
  let arg := {| column := Array [Int64 None; Int64 None];
                field := {| name := "a"; data_type := DTInt64; nullable := true |} |} in
  let f := {| fn_name := "f"; arg_names := ["a"]; is_nullable := true;
              return_type := DTInt64;
              func := {| eval := fun _ _ => Err (FunctionError "called");
                         passthrough_null := true |} |} in
  Forall2 (fun a c => ({[ "a" := arg ]} : gmap string DataColumnWithField) !! a = Some c)
    f.(arg_names) [arg]
  ∧ Exists (fun c => all_null (get_validity c.(column)) = true) [arg]
  ∧ execute_function {[ "a" := arg ]} f 2
    = Ok {| column := datavalues.Constant (Int64 None) 2;
            field := {| name := "f"; data_type := DTInt64; nullable := true |} |}.
Proof.
  intros arg f.
  assert (Ha : Forall2 (fun a c => ({[ "a" := arg ]} : gmap string DataColumnWithField)
                  !! a = Some c) f.(arg_names) [arg])
    by (repeat constructor).
  assert (He : Exists (fun c => all_null (get_validity c.(column)) = true) [arg])
    by (apply Exists_cons; left; reflexivity).
  split; [exact Ha|]. split; [exact He|].
  exact (proj1 (all_null_short_circuit {[ "a" := arg ]} f 2 [arg] Ha eq_refl eq_refl He)).
Defined.

Example masking_example :
  let arg := {| column := Array [Int64 (Some 1%Z); Int64 None; Int64 (Some 3%Z)];
                field := {| name := "a"; data_type := DTInt64; nullable := true |} |} in
  let f := {| fn_name := "f"; arg_names := ["a"]; is_nullable := true;
              return_type := DTInt64;
              func := {| eval := fun _ n => Ok (Array (repeat (Int64 (Some 0%Z)) n));
                         passthrough_null := true |} |} in
  match execute_function {[ "a" := arg ]} f 3 with
  | Ok out => get_validity out.(column) = [true; false; true]
  | Err _ => False
  end.
Proof. reflexivity. Qed.

End ExecuteFunctionFacts.

(** ** ExpressionExecutor: alias resolution in [execute] *)
Module ExecuteAliasFacts.
Import datavalues transform_expression_executor SampleExecutor.

Lemma insert_aliases_ok (am am' : gmap string DataColumnWithField)
    (c : DataColumnWithField) (names : list string) :
  insert_aliases am c names = Ok am' →
  NoDup names
  ∧ (∀ n, n ∈ names → am !! n = None ∧ is_Some (am' !! n))
  ∧ (∀ n, am' !! n = None → am !! n = None).
Proof.
  revert am; induction names as [|n names IH]; intros am H; simpl in H.
  - injection H as <-. split; [constructor|]. split; [|auto].
    intros n Hn; inversion Hn.
  - destruct (am !! n) eqn:Hn; [discriminate|].
    destruct (IH _ H) as (Hnd & Hin & Hmono).
    split; [|split].
    + constructor; [|exact Hnd].
      intros Hm. destruct (Hin n Hm) as [Hnone _].
      by rewrite lookup_insert_eq in Hnone.
    + intros m Hm. apply elem_of_cons in Hm as [->|Hm].
      * split; [exact Hn|]. destruct (am' !! n) eqn:E; [done|].
        apply Hmono in E. by rewrite lookup_insert_eq in E.
      * destruct (Hin m Hm) as [Hnone Hsome]. split; [|exact Hsome].
        destruct (decide (n = m)) as [->|Hne]; [by rewrite lookup_insert_eq in Hnone|].
        by rewrite lookup_insert_ne in Hnone.
    + intros m Hm. apply Hmono in Hm.
      destruct (decide (n = m)) as [->|Hne]; [by rewrite lookup_insert_eq in Hm|].
      by rewrite lookup_insert_ne in Hm.
Qed.

(** A successful alias pass assigns every target name once. *)
Lemma alias_pass_ok (cm am am' : gmap string DataColumnWithField)
    (l : list (string * list string)) :
  alias_pass cm l am = Ok am' →
  NoDup (concat (map snd l)) ∧ (∀ n, n ∈ concat (map snd l) → am !! n = None).
Proof.
  revert am; induction l as [|[k v] l IH]; intros am H; simpl in H.
  - split; [constructor|]. intros n Hn; inversion Hn.
  - destruct (cm !! k) as [c|]; simpl in H; [|discriminate].
    destruct (insert_aliases am c v) as [am1|] eqn:Hins; simpl in H; [|discriminate].
    destruct (insert_aliases_ok _ _ _ _ Hins) as (Hnd & Hin & Hmono).
    destruct (IH _ H) as [Hnd' Hfresh]. simpl.
    split.
    + apply NoDup_app. split; [exact Hnd|]. split; [|exact Hnd'].
      intros n Hn Hn'. destruct (Hin n Hn) as [_ [x Hx]].
      specialize (Hfresh n Hn'). congruence.
    + intros n Hn. apply elem_of_app in Hn as [Hn|Hn].
      * exact (proj1 (Hin n Hn)).
      * exact (Hmono n (Hfresh n Hn)).
Qed.

Lemma concat_nodup_shared (l : list (string * list string)) k1 v1 k2 v2 y :
  NoDup (concat (map snd l)) → (k1, v1) ∈ l → (k2, v2) ∈ l → k1 ≠ k2 →
  y ∈ v1 → y ∈ v2 → False.
Proof.
  induction l as [|[k v] l IH]; intros Hnd H1 H2 Hk Hy1 Hy2;
    [inversion H1|].
  simpl in Hnd. apply NoDup_app in Hnd as (_ & Hdisj & Hnd).
  assert (Hc : ∀ k' v', (k', v') ∈ l → y ∈ v' → y ∈ concat (map snd l)).
  { intros k' v' Hm Hy. apply list_elem_of_In, in_concat.
    exists v'. split; [apply in_map_iff; exists (k', v'); split;
                        [reflexivity|by apply list_elem_of_In]|].
    by apply list_elem_of_In. }
  apply elem_of_cons in H1 as [E1|H1]; apply elem_of_cons in H2 as [E2|H2].
  - injection E1 as -> ->; injection E2 as -> ->. contradiction.
  - injection E1 as -> ->. exact (Hdisj y Hy1 (Hc _ _ H2 Hy2)).
  - injection E2 as -> ->. exact (Hdisj y Hy2 (Hc _ _ H1 Hy1)).
  - exact (IH Hnd H1 H2 Hk Hy1 Hy2).
Qed.

Lemma push_alias_grows (m : gmap string (list string)) arg name k v :
  m !! k = Some v → ∃ v', push_alias m arg name !! k = Some v' ∧ v ⊆ v'.
Proof.
  intros Hk. unfold push_alias.
  destruct (decide (arg = k)) as [->|Hne].
  - rewrite Hk, lookup_insert_eq. eexists; split; [reflexivity|].
    intros x Hx. apply elem_of_app; auto.
  - destruct (m !! arg); rewrite lookup_insert_ne by done;
      eexists; (split; [exact Hk|done]).
Qed.

Lemma push_alias_records (m : gmap string (list string)) arg name :
  ∃ v', push_alias m arg name !! arg = Some v' ∧ name ∈ v'.
Proof.
  unfold push_alias. destruct (m !! arg); rewrite lookup_insert_eq;
    eexists; split; try reflexivity.
  - apply elem_of_app; right; constructor.
  - constructor.
Qed.

Lemma push_alias_keys (m : gmap string (list string)) arg name k :
  is_Some (push_alias m arg name !! k) → k = arg ∨ is_Some (m !! k).
Proof.
  unfold push_alias. destruct (decide (arg = k)) as [->|Hne]; [auto|].
  destruct (m !! arg); rewrite lookup_insert_ne by done; auto.
Qed.

(** [step] only touches [alias_action_map] by recording an alias. *)
Lemma step_alias_map block rows action cm aam cm' aam' :
  step block rows action (cm, aam) = Ok (cm', aam') →
  aam' = match action with
         | Alias a => push_alias aam a.(arg_name) a.(alias_name)
         | _ => aam
         end.
Proof.
  unfold step. intros H.
  destruct (decide (is_Some (cm !! column_name action))).
  - injection H as _ <-. reflexivity.
  - destruct action as [i|f|c|a]; simpl in H.
    + destruct (try_column_by_name block _); simpl in H; [|discriminate].
      destruct (field_with_name block _); simpl in H; [|discriminate].
      by injection H as _ <-.
    + destruct (execute_function cm f rows); simpl in H; [|discriminate].
      by injection H as _ <-.
    + by injection H as _ <-.
    + by injection H as _ <-.
Qed.

Lemma run_actions_alias_map block rows actions cm aam cm' aam' :
  run_actions block rows actions (cm, aam) = Ok (cm', aam') →
  (∀ k v, aam !! k = Some v → ∃ v', aam' !! k = Some v' ∧ v ⊆ v')
  ∧ (∀ a, Alias a ∈ actions →
     ∃ v', aam' !! a.(arg_name) = Some v' ∧ a.(alias_name) ∈ v')
  ∧ (∀ k, is_Some (aam' !! k) →
     is_Some (aam !! k) ∨ ∃ a, Alias a ∈ actions ∧ a.(arg_name) = k).
Proof.
  revert cm aam. induction actions as [|act actions IH]; intros cm aam H; cbn [run_actions] in H.
  - injection H as -> ->. split; [|split].
    + intros k v Hk. exists v. split; [exact Hk|done].
    + intros a Ha; inversion Ha.
    + auto.
  - destruct (step block rows act (cm, aam)) as [[cm1 aam1]|] eqn:Hs;
      simpl in H; [|discriminate].
    apply step_alias_map in Hs.
    destruct (IH _ _ H) as (Hgrow & Hrec & Hkeys).
    split; [|split].
    + intros k v Hk.
      assert (Hk1 : ∃ v1, aam1 !! k = Some v1 ∧ v ⊆ v1).
      { subst aam1. destruct act; try (exists v; split; [exact Hk|done]).
        apply push_alias_grows; exact Hk. }
      destruct Hk1 as (v1 & Hv1 & Hsub).
      destruct (Hgrow k v1 Hv1) as (v' & Hv' & Hsub').
      exists v'. split; [exact Hv'|]. set_solver.
    + intros a Ha. apply elem_of_cons in Ha as [Ha|Ha]; [|exact (Hrec a Ha)].
      subst act aam1.
      destruct (push_alias_records aam a.(arg_name) a.(alias_name)) as (v & Hv & Hn).
      destruct (Hgrow _ _ Hv) as (v' & Hv' & Hsub).
      exists v'. split; [exact Hv'|]. set_solver.
    + intros k Hk. destruct (Hkeys k Hk) as [Hk1|(a & Ha & Harg)].
      * subst aam1. destruct act as [| | |a]; auto.
        apply push_alias_keys in Hk1 as [->|Hk1]; [|auto].
        right. exists a. split; [constructor|reflexivity].
      * right. exists a. split; [by apply elem_of_cons; right|exact Harg].
Qed.

Lemma insert_aliases_cases (am : gmap string DataColumnWithField)
    (c : DataColumnWithField) (names : list string) :
  (∃ am', insert_aliases am c names = Ok am')
  ∨ ∃ n, insert_aliases am c names = Err (duplicate_alias n).
Proof.
  revert am; induction names as [|n names IH]; intros am; simpl; [eauto|].
  destruct (am !! n); [eauto|apply IH].
Qed.

Lemma alias_pass_cases (cm am : gmap string DataColumnWithField)
    (l : list (string * list string)) :
  (∀ k v, (k, v) ∈ l → is_Some (cm !! k)) →
  (∃ am', alias_pass cm l am = Ok am')
  ∨ ∃ n, alias_pass cm l am = Err (duplicate_alias n).
Proof.
  revert am; induction l as [|[k v] l IH]; intros am Hsrc; simpl; [eauto|].
  destruct (Hsrc k v ltac:(by apply elem_of_cons; left)) as [c Hc]. rewrite Hc. simpl.
  destruct (insert_aliases_cases am c v) as [[am1 Hi]|[n Hi]]; rewrite Hi; simpl;
    [|eauto].
  apply IH. intros k' v' Hm. apply (Hsrc k' v'). by apply elem_of_cons; right.
Qed.

(** Two recorded aliases with one target and different sources make every
    order of the alias pass fail. *)
Lemma alias_pass_rejects_duplicate
    (iter_order : list (string * list string) -> list (string * list string))
    (Hperm : ∀ l, iter_order l ≡ₚ l)
    block rows actions cm0 cm aam (a1 a2 : ActionAlias) am' :
  run_actions block rows actions (cm0, ∅) = Ok (cm, aam) →
  Alias a1 ∈ actions → Alias a2 ∈ actions →
  a1.(alias_name) = a2.(alias_name) → a1.(arg_name) ≠ a2.(arg_name) →
  alias_pass cm (iter_order (map_to_list aam)) ∅ ≠ Ok am'.
Proof.
  intros Hrun H1 H2 Hname Hsrc Hpass.
  destruct (run_actions_alias_map _ _ _ _ _ _ _ Hrun) as (_ & Hrec & _).
  destruct (Hrec a1 H1) as (v1 & Hv1 & Hy1).
  destruct (Hrec a2 H2) as (v2 & Hv2 & Hy2).
  destruct (alias_pass_ok _ _ _ _ Hpass) as [Hnd _].
  apply (concat_nodup_shared _ a1.(arg_name) v1 a2.(arg_name) v2 a1.(alias_name) Hnd);
    try done.
  - rewrite (Hperm _). by apply elem_of_map_to_list.
  - rewrite (Hperm _). by apply elem_of_map_to_list.
  - by rewrite Hname.
Qed.

(** C7 (amended): with [alias_project] set, a chain with two [Alias]
    actions of one target name and different source names never yields an
    output block, in any iteration order of the alias map; when the action
    pass succeeds and every alias source is in the working map, the failure
    is the duplicate-alias error. *)
Theorem duplicate_alias_target_fails
    (iter_order : list (string * list string) -> list (string * list string))
    (Hperm : ∀ l, iter_order l ≡ₚ l)
    (self : ExpressionExecutor) (block : DataBlock) (a1 a2 : ActionAlias)
    (Hproject : self.(alias_project) = true)
    (H1 : Alias a1 ∈ self.(chain)) (H2 : Alias a2 ∈ self.(chain))
    (Hname : a1.(alias_name) = a2.(alias_name))
    (Hsrc : a1.(arg_name) ≠ a2.(arg_name)) :
  (∃ e, execute iter_order self block = Err e)
  ∧ (∀ cm0 cm aam,
     seed block block.(schema) ∅ = Ok cm0 →
     run_actions block (num_rows block) self.(chain) (cm0, ∅) = Ok (cm, aam) →
     (∀ a, Alias a ∈ self.(chain) → is_Some (cm !! a.(arg_name))) →
     ∃ n, execute iter_order self block = Err (duplicate_alias n)).
Proof.
  split.
  - unfold execute.
    destruct (seed block (schema block) ∅) as [cm0|e]; simpl; [|eauto].
    destruct (run_actions block (num_rows block) (chain self) (cm0, ∅))
      as [[cm aam]|e] eqn:Hrun; simpl; [|eauto].
    rewrite Hproject.
    destruct (alias_pass cm (iter_order (map_to_list aam)) ∅) as [am'|e] eqn:Hp;
      simpl; [|eauto].
    exfalso. exact (alias_pass_rejects_duplicate iter_order Hperm _ _ _ _ _ _
                      a1 a2 am' Hrun H1 H2 Hname Hsrc Hp).
  - intros cm0 cm aam Hseed Hrun Hsources. unfold execute.
    rewrite Hseed. simpl. rewrite Hrun. simpl. rewrite Hproject.
    destruct (alias_pass_cases cm ∅ (iter_order (map_to_list aam)))
      as [[am' Hp]|[n Hp]].
    + intros k v Hkv. rewrite (Hperm _) in Hkv.
      apply elem_of_map_to_list in Hkv.
      destruct (run_actions_alias_map _ _ _ _ _ _ _ Hrun) as (_ & _ & Hkeys).
      destruct (Hkeys k (mk_is_Some _ _ Hkv)) as [[x Hx]|(a & Ha & <-)];
        [by rewrite lookup_empty in Hx|exact (Hsources a Ha)].
    + exfalso. exact (alias_pass_rejects_duplicate iter_order Hperm _ _ _ _ _ _
                        a1 a2 am' Hrun H1 H2 Hname Hsrc Hp).
    + exists n. rewrite Hp. reflexivity.
Qed.

Example duplicate_alias_example :
  execute identity_order (duplicate_alias_executor true [field_of "y"]) block_ab
  = Err (duplicate_alias "y").
Proof. reflexivity. Qed.

(** A missing alias source is reported before the duplicate target. *)
Example missing_alias_source_example :
  execute identity_order (duplicate_alias_executor true [field_of "y"]) block_a
  = Err (LogicalError "Arguments must be prepared before alias transform").
Proof. reflexivity. Qed.

Lemma duplicate_alias_target_fails_witness :
  (∀ l, identity_order l ≡ₚ l)
  ∧ (duplicate_alias_executor true [field_of "y"]).(alias_project) = true
  ∧ Alias alias_y_a ∈ (duplicate_alias_executor true [field_of "y"]).(chain)
  ∧ Alias alias_y_b ∈ (duplicate_alias_executor true [field_of "y"]).(chain)
  ∧ alias_y_a.(alias_name) = alias_y_b.(alias_name)
  ∧ alias_y_a.(arg_name) ≠ alias_y_b.(arg_name)
  ∧ ∃ e, execute identity_order (duplicate_alias_executor true [field_of "y"])
           block_ab = Err e.
Proof.
  assert (Hp : ∀ l, identity_order l ≡ₚ l) by (intros l; reflexivity).
  assert (H1 : Alias alias_y_a ∈ (duplicate_alias_executor true [field_of "y"]).(chain))
    by (apply elem_of_cons; left; reflexivity).
  assert (H2 : Alias alias_y_b ∈ (duplicate_alias_executor true [field_of "y"]).(chain))
    by (apply elem_of_cons; right; apply elem_of_cons; left; reflexivity).
  assert (Hs : alias_y_a.(arg_name) ≠ alias_y_b.(arg_name)) by discriminate.
  split; [exact Hp|]. split; [reflexivity|]. split; [exact H1|].
  split; [exact H2|]. split; [reflexivity|]. split; [exact Hs|].
  exact (proj1 (duplicate_alias_target_fails identity_order Hp
           (duplicate_alias_executor true [field_of "y"]) block_ab
           alias_y_a alias_y_b eq_refl H1 H2 eq_refl Hs)).
Defined.

(** C7 as stated fails: with [alias_project] unset, the chain [a as y,
    b as y] runs on [block_ab] and returns an output block. *)
Lemma duplicate_alias_without_alias_project :
  Alias alias_y_a ∈ (duplicate_alias_executor false [field_of "a"]).(chain)
  ∧ Alias alias_y_b ∈ (duplicate_alias_executor false [field_of "a"]).(chain)
  ∧ alias_y_a.(alias_name) = alias_y_b.(alias_name)
  ∧ alias_y_a.(arg_name) ≠ alias_y_b.(arg_name)
  ∧ execute identity_order (duplicate_alias_executor false [field_of "a"]) block_ab
    = Ok {| schema := [field_of "a"]; columns := [Array [Int64 (Some 1%Z)]] |}.
Proof.
  split; [apply elem_of_cons; left; reflexivity|].
  split; [apply elem_of_cons; right; apply elem_of_cons; left; reflexivity|].
  split; [reflexivity|]. split; [discriminate|].
  reflexivity.
Qed.

End ExecuteAliasFacts.

(** ** Further properties of the null column, its builder and NullableType *)
Module ExtraColumnFacts.
Import datavalues2 SampleTypes.



(** Any sequence of [append_null] and [append_default] calls grows the
    builder by one row per call, and [append_null] always reports [true]:
    the builder does not distinguish the two. *)
Theorem apply_ops_counts (ops : list MutableNullColumn.AppendOp)
    (m : MutableNullColumn) :
  (MutableNullColumn.apply_ops ops m).(mlength) = m.(mlength) + List.length ops
  ∧ fst (MutableNullColumn.append_null m) = true
  ∧ MutableNullColumn.apply_op m MutableNullColumn.AppendNull
    = MutableNullColumn.apply_op m MutableNullColumn.AppendDefault.
Proof.
  split; [|split; reflexivity].
  unfold MutableNullColumn.apply_ops.
  revert m; induction ops as [|op ops IH]; intros m; simpl; [lia|].
  rewrite IH. destruct op; simpl; lia.
Qed.


(** Over a non-[Null] inner type, the constant column of [v] and the
    column built from [n] copies of [v] carry the same validity bitmap. *)
Theorem constant_column_validity_matches_create_column (nt : NullableType)
    (v : DataValue) (n : nat) (c1 c2 : ColumnRef)
    (Hinner : nt.(inner).(data_type_id) ≠ TNull)
    (H1 : NullableType.create_constant_column nt v n = Ok c1)
    (H2 : NullableType.create_column nt (repeat v n) = Ok c2) :
  nullable_validity c1 = nullable_validity c2
  ∧ nullable_validity c1 = Some (repeat (negb (is_null v)) n).
Proof.
  unfold NullableType.create_constant_column in H1.
  destruct (decide (data_type_id (inner nt) = TNull)); [contradiction|].
  unfold NullableType.create_column in H2. rewrite NullableTypeFacts.stage_map in H2.
  destruct (is_null v) eqn:Hv; simpl in H1, H2;
    destruct (datavalues2.create_constant_column (inner nt) _ n); try discriminate;
    destruct (datavalues2.create_column (inner nt) _); try discriminate;
    injection H1 as <-; injection H2 as <-; simpl;
    rewrite map_repeat, Hv; split; reflexivity.
Qed.

Lemma constant_column_validity_matches_create_column_witness :
  {| inner := int64_type |}.(inner).(data_type_id) ≠ TNull
  ∧ NullableType.create_constant_column {| inner := int64_type |} Null 2
    = Ok (NullableColumn (ConstColumn (PrimitiveColumn [Int64 0]) 2) [false; false])
  ∧ NullableType.create_column {| inner := int64_type |} (repeat Null 2)
    = Ok (NullableColumn (PrimitiveColumn [Int64 0; Int64 0]) [false; false])
  ∧ nullable_validity (NullableColumn (ConstColumn (PrimitiveColumn [Int64 0]) 2)
                                      [false; false])
    = nullable_validity (NullableColumn (PrimitiveColumn [Int64 0; Int64 0])
                                        [false; false]).
Proof.
  assert (Hn : {| inner := int64_type |}.(inner).(data_type_id) ≠ TNull)
    by discriminate.
  split; [exact Hn|]. split; [reflexivity|]. split; [reflexivity|].
  exact (proj1 (constant_column_validity_matches_create_column
                  {| inner := int64_type |} Null 2 _ _ Hn eq_refl eq_refl)).
Defined.

End ExtraColumnFacts.

(** ** Further properties of the expression executor *)
Module ExtraExecutorFacts.
Import datavalues transform_expression_executor SampleExecutor.

Lemma mapM_Ok {A B} (f : A → Result B) (l : list A) (r : list B) :
  mapM f l = Ok r → Forall2 (fun x y => f x = Ok y) l r.
Proof.
  revert r; induction l as [|x l IH]; intros r H; simpl in H.
  - injection H as <-. constructor.
  - destruct (f x) as [y|e] eqn:Hx; simpl in H; [|discriminate].
    destruct (mapM f l) as [ys|e] eqn:Hl; simpl in H; [|discriminate].
    injection H as <-. constructor; [exact Hx|exact (IH _ eq_refl)].
Qed.

Definition missing_argument : ErrorCode :=
  LogicalError "Arguments must be prepared before function transform".

Lemma mapM_lookup_missing (cm : gmap string DataColumnWithField) (names : list string) :
  Exists (fun a => cm !! a = None) names →
  mapM (fun arg => ok_or_else (cm !! arg) missing_argument) names = Err missing_argument.
Proof.
  induction names as [|n names IH]; intros H; [inversion H|].
  apply Exists_cons in H. simpl.
  destruct (cm !! n) eqn:Hn; simpl.
  - destruct H as [H|H]; [congruence|]. by rewrite (IH H).
  - reflexivity.
Qed.

(** A function argument missing from the working map makes
    [execute_function] fail with the "Arguments must be prepared" error,
    before the function is evaluated. *)
Theorem execute_function_missing_argument (cm : gmap string DataColumnWithField)
    (f : ActionFunction) (rows : nat)
    (Hmissing : Exists (fun a => cm !! a = None) f.(arg_names)) :
  execute_function cm f rows = Err missing_argument.
Proof.
  unfold execute_function. fold missing_argument.
  rewrite (mapM_lookup_missing _ _ Hmissing). reflexivity.
Qed.

Lemma execute_function_missing_argument_witness :
  Exists (fun a => ({[ "x" := x_column ]} : gmap string DataColumnWithField) !! a = None)
    ["y"]
  ∧ execute_function {[ "x" := x_column ]}
      {| fn_name := "f"; arg_names := ["y"]; is_nullable := true;
         return_type := DTInt64; func := x_plus_one.(func) |} 1
    = Err missing_argument.
Proof.
  assert (H : Exists (fun a => ({[ "x" := x_column ]} : gmap string DataColumnWithField)
                 !! a = None) ["y"])
    by (apply Exists_cons; left; reflexivity).
  split; [exact H|].
  exact (execute_function_missing_argument {[ "x" := x_column ]}
           {| fn_name := "f"; arg_names := ["y"]; is_nullable := true;
              return_type := DTInt64; func := x_plus_one.(func) |} 1 H).
Defined.





Lemma step_keeps block rows action cm aam cm' aam' k c :
  step block rows action (cm, aam) = Ok (cm', aam') →
  cm !! k = Some c → cm' !! k = Some c.
Proof.
  unfold step. intros H Hk.
  destruct (decide (is_Some (cm !! column_name action))) as [_|Hnew].
  - by injection H as <- _.
  - assert (Hne : column_name action ≠ k).
    { intros Heq. apply Hnew. rewrite Heq, Hk. by eexists. }
    destruct action as [i|f|c'|a]; simpl in H.
    + destruct (try_column_by_name block _); simpl in H; [|discriminate].
      destruct (field_with_name block _); simpl in H; [|discriminate].
      injection H as <- _. rewrite lookup_insert_ne; [exact Hk|exact Hne].
    + destruct (execute_function cm f rows); simpl in H; [|discriminate].
      injection H as <- _. rewrite lookup_insert_ne; [exact Hk|exact Hne].
    + injection H as <- _. rewrite lookup_insert_ne; [exact Hk|exact Hne].
    + by injection H as <- _.
Qed.

Lemma step_new_keys block rows action cm aam cm' aam' k :
  step block rows action (cm, aam) = Ok (cm', aam') →
  is_Some (cm' !! k) →
  is_Some (cm !! k)
  ∨ match action with Alias _ => False | _ => column_name action = k end.
Proof.
  unfold step. intros H Hk.
  destruct (decide (is_Some (cm !! column_name action))) as [_|Hnew].
  - injection H as <- _. by left.
  - destruct action as [i|f|c'|a]; simpl in H |- *.
    + destruct (try_column_by_name block _); simpl in H; [|discriminate].
      destruct (field_with_name block _); simpl in H; [|discriminate].
      injection H as <- _.
      destruct (decide (input_name i = k)) as [->|Hne]; [by right|].
      rewrite lookup_insert_ne in Hk by done. by left.
    + destruct (execute_function cm f rows); simpl in H; [|discriminate].
      injection H as <- _.
      destruct (decide (fn_name f = k)) as [->|Hne]; [by right|].
      rewrite lookup_insert_ne in Hk by done. by left.
    + injection H as <- _.
      destruct (decide (const_name c' = k)) as [->|Hne]; [by right|].
      rewrite lookup_insert_ne in Hk by done. by left.
    + injection H as <- _. by left.
Qed.

(** The action pass never replaces a column of the working map: the
    columns of the input block, and every column computed earlier, keep
    their value (a later action of the same name is skipped). *)
Theorem run_actions_keeps_columns block rows actions cm aam cm' aam' k c
    (Hrun : run_actions block rows actions (cm, aam) = Ok (cm', aam'))
    (Hk : cm !! k = Some c) :
  cm' !! k = Some c.
Proof.
  revert cm aam Hrun Hk. induction actions as [|act actions IH];
    intros cm aam Hrun Hk; cbn [run_actions] in Hrun.
  - by injection Hrun as <- _.
  - destruct (step block rows act (cm, aam)) as [[cm1 aam1]|e] eqn:Hs;
      simpl in Hrun; [|discriminate].
    exact (IH _ _ Hrun (step_keeps _ _ _ _ _ _ _ _ _ Hs Hk)).
Qed.

Lemma run_actions_keeps_columns_witness :
  run_actions block_x 1 [constant_x] ({[ "x" := x_column ]}, ∅)
    = Ok ({[ "x" := x_column ]}, ∅)
  ∧ ({[ "x" := x_column ]} : gmap string DataColumnWithField) !! "x" = Some x_column
  ∧ ({[ "x" := x_column ]} : gmap string DataColumnWithField) !! "x" = Some x_column.
Proof.
  assert (Hrun : run_actions block_x 1 [constant_x] ({[ "x" := x_column ]}, ∅)
                 = Ok ({[ "x" := x_column ]}, ∅)) by reflexivity.
  assert (Hk : ({[ "x" := x_column ]} : gmap string DataColumnWithField) !! "x"
               = Some x_column) by reflexivity.
  split; [exact Hrun|]. split; [exact Hk|].
  exact (run_actions_keeps_columns _ _ _ _ _ _ _ _ _ Hrun Hk).
Defined.

(** Every column the action pass adds to the working map is named by an
    [Input], [Function] or [Constant] action of the chain; [Alias] actions
    never add a column to it. *)
Theorem run_actions_new_columns block rows actions cm aam cm' aam' k
    (Hrun : run_actions block rows actions (cm, aam) = Ok (cm', aam'))
    (Hk : is_Some (cm' !! k)) :
  is_Some (cm !! k)
  ∨ ∃ a, a ∈ actions
         ∧ match a with Alias _ => False | _ => column_name a = k end.
Proof.
  revert cm aam Hrun. induction actions as [|act actions IH];
    intros cm aam Hrun; cbn [run_actions] in Hrun.
  - injection Hrun as <- _. by left.
  - destruct (step block rows act (cm, aam)) as [[cm1 aam1]|e] eqn:Hs;
      simpl in Hrun; [|discriminate].
    destruct (IH _ _ Hrun) as [H1|(a & Ha & Hn)].
    + destruct (step_new_keys _ _ _ _ _ _ _ _ Hs H1) as [H0|H0]; [by left|].
      right. exists act. split; [by apply elem_of_cons; left|exact H0].
    + right. exists a. split; [by apply elem_of_cons; right|exact Hn].
Qed.

Lemma run_actions_new_columns_witness :
  let cc := {| column := datavalues.Constant (Int64 (Some 7%Z)) 1;
               field := {| name := "c"; data_type := DTInt64; nullable := false |} |} in
  let act := Constant {| const_name := "c"; value := Int64 (Some 7%Z);
                         const_data_type := DTInt64 |} in
  run_actions block_x 1 [act] ({[ "x" := x_column ]}, ∅)
    = Ok (<[ "c" := cc ]> {[ "x" := x_column ]}, ∅)
  ∧ is_Some ((<[ "c" := cc ]> {[ "x" := x_column ]}
              : gmap string DataColumnWithField) !! "c")
  ∧ ∃ a, a ∈ [act] ∧ match a with Alias _ => False | _ => column_name a = "c" end.
Proof.
  intros cc act.
  assert (Hrun : run_actions block_x 1 [act] ({[ "x" := x_column ]}, ∅)
                 = Ok (<[ "c" := cc ]> {[ "x" := x_column ]}, ∅)) by reflexivity.
  assert (Hk : is_Some ((<[ "c" := cc ]> {[ "x" := x_column ]}
                         : gmap string DataColumnWithField) !! "c"))
    by (eexists; reflexivity).
  split; [exact Hrun|]. split; [exact Hk|].
  destruct (run_actions_new_columns _ _ _ _ _ _ _ _ Hrun Hk) as [[x Hx]|H];
    [discriminate|exact H].
Defined.

Lemma execute_after_actions iter_order self block cm0 cm aam :
  seed block block.(schema) ∅ = Ok cm0 →
  run_actions block (num_rows block) self.(chain) (cm0, ∅) = Ok (cm, aam) →
  execute iter_order self block
  = (alias_map ← (if self.(alias_project)
                  then alias_pass cm (iter_order (map_to_list aam)) ∅
                  else Ok ∅);
     project_columns ← mapM (project cm alias_map) self.(output_schema);
     Ok {| schema := self.(output_schema); columns := project_columns |}).
Proof. intros Hs Hr. unfold execute. rewrite Hs. simpl. rewrite Hr. reflexivity. Qed.

(** A successful [execute] returns a block with the executor's output
    schema and one column per output field, in the schema's order. *)
Theorem execute_output_shape iter_order self block out
    (Hok : execute iter_order self block = Ok out) :
  out.(schema) = self.(output_schema)
  ∧ List.length out.(columns) = List.length self.(output_schema).
Proof.
  unfold execute in Hok.
  destruct (seed block (schema block) ∅) as [cm0|e]; simpl in Hok; [|discriminate].
  destruct (run_actions _ _ _ _) as [[cm aam]|e]; simpl in Hok; [|discriminate].
  destruct (if alias_project self then _ else _) as [am|e]; simpl in Hok;
    [|discriminate].
  destruct (mapM (project cm am) (output_schema self)) as [cols|e] eqn:Hm;
    simpl in Hok; [|discriminate].
  injection Hok as <-. split; [reflexivity|]. simpl.
  symmetry. exact (Forall2_length _ _ _ (mapM_Ok _ _ _ Hm)).
Qed.

Lemma execute_output_shape_witness :
  execute identity_order (fan_out_executor true [field_of "y"; field_of "z"]) block_x
  = Ok {| schema := [field_of "y"; field_of "z"];
          columns := [Array [Int64 (Some 5%Z)]; Array [Int64 (Some 5%Z)]] |}
  ∧ List.length [Array [Int64 (Some 5%Z)]; Array [Int64 (Some 5%Z)]] = 2.
Proof.
  assert (H : execute identity_order (fan_out_executor true [field_of "y"; field_of "z"])
                block_x
              = Ok {| schema := [field_of "y"; field_of "z"];
                      columns := [Array [Int64 (Some 5%Z)]; Array [Int64 (Some 5%Z)]] |})
    by reflexivity.
  split; [exact H|].
  exact (proj2 (execute_output_shape _ _ _ _ H)).
Defined.

(** Without [alias_project] no alias is resolved: each output column is the
    column of the same name in the working map left by the action pass. *)
Theorem execute_without_alias_project iter_order self block cm0 cm aam out
    (Hproject : self.(alias_project) = false)
    (Hseed : seed block block.(schema) ∅ = Ok cm0)
    (Hrun : run_actions block (num_rows block) self.(chain) (cm0, ∅) = Ok (cm, aam))
    (Hok : execute iter_order self block = Ok out) :
  Forall2 (fun f c => column <$> cm !! f.(name) = Some c)
    self.(output_schema) out.(columns).
Proof.
  rewrite (execute_after_actions _ _ _ _ _ _ Hseed Hrun), Hproject in Hok.
  simpl in Hok.
  destruct (mapM (project cm ∅) (output_schema self)) as [cols|e] eqn:Hm;
    simpl in Hok; [|discriminate].
  injection Hok as <-. simpl.
  eapply Forall2_impl; [exact (mapM_Ok _ _ _ Hm)|].
  intros f c Hp. unfold project in Hp. rewrite lookup_empty in Hp.
  destruct (cm !! name f); simpl in Hp; [|discriminate].
  by injection Hp as <-.
Qed.

Lemma execute_without_alias_project_witness :
  (fan_out_executor false [field_of "x"]).(alias_project) = false
  ∧ seed block_x block_x.(schema) ∅ = Ok {[ "x" := x_column ]}
  ∧ run_actions block_x (num_rows block_x)
      (fan_out_executor false [field_of "x"]).(chain) ({[ "x" := x_column ]}, ∅)
    = Ok ({[ "x" := x_column ]}, {[ "x" := ["y"; "z"] ]})
  ∧ execute identity_order (fan_out_executor false [field_of "x"]) block_x
    = Ok {| schema := [field_of "x"]; columns := [Array [Int64 (Some 5%Z)]] |}
  ∧ Forall2 (fun f c => column <$> ({[ "x" := x_column ]}
                          : gmap string DataColumnWithField) !! f.(name) = Some c)
      [field_of "x"] [Array [Int64 (Some 5%Z)]].
Proof.
  assert (Hs : seed block_x block_x.(schema) ∅ = Ok {[ "x" := x_column ]})
    by reflexivity.
  assert (Hr : run_actions block_x (num_rows block_x)
      (fan_out_executor false [field_of "x"]).(chain) ({[ "x" := x_column ]}, ∅)
    = Ok ({[ "x" := x_column ]}, {[ "x" := ["y"; "z"] ]})) by reflexivity.
  assert (He : execute identity_order (fan_out_executor false [field_of "x"]) block_x
    = Ok {| schema := [field_of "x"]; columns := [Array [Int64 (Some 5%Z)]] |})
    by reflexivity.
  split; [reflexivity|]. split; [exact Hs|]. split; [exact Hr|].
  split; [exact He|].
  exact (execute_without_alias_project identity_order (fan_out_executor false [field_of "x"])
           block_x _ _ _ _ eq_refl Hs Hr He).
Defined.

Lemma insert_aliases_sound (am am' : gmap string DataColumnWithField)
    (c : DataColumnWithField) (names : list string) :
  insert_aliases am c names = Ok am' →
  (∀ n, n ∈ names → am' !! n = Some c)
  ∧ (∀ n x, am !! n = Some x → am' !! n = Some x).
Proof.
  revert am; induction names as [|n names IH]; intros am H; simpl in H.
  - injection H as <-. split; [|auto]. intros n Hn; inversion Hn.
  - destruct (am !! n) eqn:Hn; [discriminate|].
    destruct (IH _ H) as [Hin Hmono]. split.
    + intros m Hm. apply elem_of_cons in Hm as [->|Hm]; [|exact (Hin m Hm)].
      apply Hmono. apply lookup_insert_eq.
    + intros m x Hm. apply Hmono.
      destruct (decide (n = m)) as [->|Hne]; [congruence|].
      by rewrite lookup_insert_ne.
Qed.

Lemma alias_pass_sound (cm am am' : gmap string DataColumnWithField)
    (l : list (string * list string)) :
  alias_pass cm l am = Ok am' →
  (∀ k v n, (k, v) ∈ l → n ∈ v → ∃ c, cm !! k = Some c ∧ am' !! n = Some c)
  ∧ (∀ n x, am !! n = Some x → am' !! n = Some x).
Proof.
  revert am; induction l as [|[k v] l IH]; intros am H; simpl in H.
  - injection H as <-. split; [|auto]. intros k v n Hkv; inversion Hkv.
  - destruct (cm !! k) as [c|] eqn:Hc; simpl in H; [|discriminate].
    destruct (insert_aliases am c v) as [am1|] eqn:Hins; simpl in H; [|discriminate].
    destruct (insert_aliases_sound _ _ _ _ Hins) as [Hin Hmono].
    destruct (IH _ H) as [Hrest Hmono']. split.
    + intros k' v' n Hkv Hn. apply elem_of_cons in Hkv as [E|Hkv].
      * injection E as -> ->. exists c. split; [exact Hc|].
        exact (Hmono' _ _ (Hin n Hn)).
      * exact (Hrest _ _ _ Hkv Hn).
    + intros n x Hx. exact (Hmono' _ _ (Hmono _ _ Hx)).
Qed.

(** Alias fan-out: with [alias_project] set, an output field named by an
    alias of source [k] receives [k]'s column from the working map (in any
    iteration order of the alias map), even when a computed column has the
    same name. *)
Theorem execute_alias_fan_out
    (iter_order : list (string * list string) -> list (string * list string))
    (Hperm : ∀ l, iter_order l ≡ₚ l)
    self block cm0 cm aam out k v i f
    (Hproject : self.(alias_project) = true)
    (Hseed : seed block block.(schema) ∅ = Ok cm0)
    (Hrun : run_actions block (num_rows block) self.(chain) (cm0, ∅) = Ok (cm, aam))
    (Hok : execute iter_order self block = Ok out)
    (Hk : aam !! k = Some v) (Hn : f.(name) ∈ v)
    (Hf : self.(output_schema) !! i = Some f) :
  out.(columns) !! i = column <$> cm !! k.
Proof.
  rewrite (execute_after_actions _ _ _ _ _ _ Hseed Hrun), Hproject in Hok.
  simpl in Hok.
  destruct (alias_pass cm (iter_order (map_to_list aam)) ∅) as [am|e] eqn:Hp;
    simpl in Hok; [|discriminate].
  destruct (mapM (project cm am) (output_schema self)) as [cols|e] eqn:Hm;
    simpl in Hok; [|discriminate].
  injection Hok as <-. simpl.
  destruct (proj1 (alias_pass_sound _ _ _ _ Hp) k v (name f)) as (c & Hc & Ha).
  { rewrite (Hperm _). by apply elem_of_map_to_list. }
  { exact Hn. }
  destruct (Forall2_lookup_l _ _ _ _ _ (mapM_Ok _ _ _ Hm) Hf) as (col & Hcol & Hpr).
  rewrite Hcol, Hc. unfold project in Hpr. rewrite Ha in Hpr.
  by injection Hpr as <-.
Qed.

Lemma execute_alias_fan_out_witness :
  (∀ l, identity_order l ≡ₚ l)
  ∧ seed block_x block_x.(schema) ∅ = Ok {[ "x" := x_column ]}
  ∧ run_actions block_x (num_rows block_x)
      (fan_out_executor true [field_of "y"; field_of "z"]).(chain)
      ({[ "x" := x_column ]}, ∅)
    = Ok ({[ "x" := x_column ]}, {[ "x" := ["y"; "z"] ]})
  ∧ execute identity_order (fan_out_executor true [field_of "y"; field_of "z"]) block_x
    = Ok {| schema := [field_of "y"; field_of "z"];
            columns := [Array [Int64 (Some 5%Z)]; Array [Int64 (Some 5%Z)]] |}
  ∧ [Array [Int64 (Some 5%Z)]; Array [Int64 (Some 5%Z)]] !! 1
    = column <$> ({[ "x" := x_column ]} : gmap string DataColumnWithField) !! "x".
Proof.
  assert (Hp : ∀ l, identity_order l ≡ₚ l) by (intros l; reflexivity).
  assert (Hs : seed block_x block_x.(schema) ∅ = Ok {[ "x" := x_column ]})
    by reflexivity.
  assert (Hr : run_actions block_x (num_rows block_x)
      (fan_out_executor true [field_of "y"; field_of "z"]).(chain)
      ({[ "x" := x_column ]}, ∅)
    = Ok ({[ "x" := x_column ]}, {[ "x" := ["y"; "z"] ]})) by reflexivity.
  assert (He : execute identity_order (fan_out_executor true [field_of "y"; field_of "z"])
                 block_x
    = Ok {| schema := [field_of "y"; field_of "z"];
            columns := [Array [Int64 (Some 5%Z)]; Array [Int64 (Some 5%Z)]] |})
    by reflexivity.
  split; [exact Hp|]. split; [exact Hs|]. split; [exact Hr|]. split; [exact He|].
  exact (execute_alias_fan_out identity_order Hp
           (fan_out_executor true [field_of "y"; field_of "z"]) block_x _ _ _ _ "x" ["y"; "z"] 1
           (field_of "z") eq_refl Hs Hr He eq_refl
           ltac:(apply elem_of_cons; right; apply elem_of_cons; left; reflexivity)
           eq_refl).
Defined.

Lemma project_no_alias (cm : gmap string DataColumnWithField) (f : DataField) :
  project cm ∅ f = match cm !! f.(name) with
                   | Some c => Ok c.(column)
                   | None => Err (LogicalError (String.append "Projection column: "
                               (String.append f.(name) " not exists, there are bugs!")))
                   end.
Proof. unfold project. rewrite lookup_empty. by destruct (cm !! name f). Qed.

Lemma mapM_project_missing (cm : gmap string DataColumnWithField)
    (fields : list DataField) :
  Exists (fun f => cm !! f.(name) = None) fields →
  ∃ msg, mapM (project cm ∅) fields = Err (LogicalError msg).
Proof.
  induction fields as [|f fields IH]; intros H; [inversion H|].
  apply Exists_cons in H. simpl. rewrite project_no_alias.
  destruct (cm !! name f) eqn:Hf; simpl.
  - destruct H as [H|H]; [congruence|].
    destruct (IH H) as [msg Hm]. rewrite Hm. by exists msg.
  - eexists; reflexivity.
Qed.

(** Without [alias_project], an output field that the action pass left out
    of the working map makes [execute] fail with a [LogicalError], even if
    an alias of the chain targets it. *)
Theorem execute_missing_projection iter_order self block cm0 cm aam
    (Hproject : self.(alias_project) = false)
    (Hseed : seed block block.(schema) ∅ = Ok cm0)
    (Hrun : run_actions block (num_rows block) self.(chain) (cm0, ∅) = Ok (cm, aam))
    (Hmissing : Exists (fun f => cm !! f.(name) = None) self.(output_schema)) :
  ∃ msg, execute iter_order self block = Err (LogicalError msg).
Proof.
  rewrite (execute_after_actions _ _ _ _ _ _ Hseed Hrun), Hproject. simpl.
  destruct (mapM_project_missing _ _ Hmissing) as [msg Hm].
  rewrite Hm. by exists msg.
Qed.

Lemma execute_missing_projection_witness :
  (fan_out_executor false [field_of "y"]).(alias_project) = false
  ∧ seed block_x block_x.(schema) ∅ = Ok {[ "x" := x_column ]}
  ∧ run_actions block_x (num_rows block_x)
      (fan_out_executor false [field_of "y"]).(chain) ({[ "x" := x_column ]}, ∅)
    = Ok ({[ "x" := x_column ]}, {[ "x" := ["y"; "z"] ]})
  ∧ Exists (fun f => ({[ "x" := x_column ]} : gmap string DataColumnWithField)
                       !! f.(name) = None) [field_of "y"]
  ∧ ∃ msg, execute identity_order (fan_out_executor false [field_of "y"]) block_x
           = Err (LogicalError msg).
Proof.
  assert (Hs : seed block_x block_x.(schema) ∅ = Ok {[ "x" := x_column ]})
    by reflexivity.
  assert (Hr : run_actions block_x (num_rows block_x)
      (fan_out_executor false [field_of "y"]).(chain) ({[ "x" := x_column ]}, ∅)
    = Ok ({[ "x" := x_column ]}, {[ "x" := ["y"; "z"] ]})) by reflexivity.
  assert (Hm : Exists (fun f => ({[ "x" := x_column ]} : gmap string DataColumnWithField)
                       !! f.(name) = None) [field_of "y"])
    by (apply Exists_cons; left; reflexivity).
  split; [reflexivity|]. split; [exact Hs|]. split; [exact Hr|]. split; [exact Hm|].
  exact (execute_missing_projection identity_order (fan_out_executor false [field_of "y"])
           block_x _ _ _ eq_refl Hs Hr Hm).
Defined.

End ExtraExecutorFacts.
